(** * Import-map resolution and the rollup configuration of
      nested-dependencies-in-frontend *)

From Stdlib Require Import Ascii String.
From stdpp Require Import base gmap strings list fin_maps.

Local Open Scope string_scope.

(* ===================================================================== *)
(** ** Import maps and the resolver *)
(* ===================================================================== *)

Module ImportMap.

(** The [imports] object of an import map: specifier -> target. *)
Abbreviation imports := (gmap string string).

(** ResolutionResult. *)
Inductive ResolutionResult :=
| Resolved (path : string)
| Unresolved.

(** Remainder of [s] after the prefix [k], if [s] starts with [k]. *)
Fixpoint strip_prefix (k s : string) : option string :=
  match k, s with
  | EmptyString, _ => Some s
  | String a k', String b s' => if Ascii.ascii_dec a b then strip_prefix k' s' else None
  | String _ _, EmptyString => None
  end.

(** The last character of a string, if any. *)
Fixpoint last_char (s : string) : option ascii :=
  match s with
  | EmptyString => None
  | String c EmptyString => Some c
  | String _ s' => last_char s'
  end.

(** A prefix key is a key ending in ["/"]. *)
Definition is_prefix_key (k : string) : bool :=
  match last_char k with
  | Some c => if Ascii.ascii_dec c "/"%char then true else false
  | None => false
  end.

Definition is_alpha (c : ascii) : bool :=
  let n := nat_of_ascii c in
  (((65 <=? n) && (n <=? 90)) || ((97 <=? n) && (n <=? 122)))%nat.

Definition is_digit (c : ascii) : bool :=
  let n := nat_of_ascii c in ((48 <=? n) && (n <=? 57))%nat.

(** Characters allowed after the first one of a URL scheme. *)
Definition is_scheme_char (c : ascii) : bool :=
  is_alpha c || is_digit c || bool_decide (c = "+"%char)
  || bool_decide (c = "-"%char) || bool_decide (c = "."%char).

Fixpoint scheme_tail (s : string) : bool :=
  match s with
  | EmptyString => false
  | String c s' =>
      if Ascii.ascii_dec c ":"%char then true
      else if is_scheme_char c then scheme_tail s' else false
  end.

(** [s] starts with a URL scheme: a letter, scheme characters, then [:]. *)
Definition has_scheme (s : string) : bool :=
  match s with
  | String c s' => is_alpha c && scheme_tail s'
  | EmptyString => false
  end.

Definition starts_with (k s : string) : bool :=
  match strip_prefix k s with Some _ => true | None => false end.

(** A bare specifier is governed by the map; one starting with ["./"],
    ["../"] or a scheme is not. *)
Definition is_bare (s : string) : bool :=
  negb (starts_with "./" s || starts_with "../" s || has_scheme s).

(** One step of the longest-prefix search: a matching prefix key replaces
    the current best one only when it is strictly longer. *)
Definition prefix_step (s : string) (best : option (string * string))
    (kt : string * string) : option (string * string) :=
  let '(k, t) := kt in
  if is_prefix_key k && starts_with k s then
    match best with
    | None => Some (k, t)
    | Some (k0, _) => if (String.length k0 <? String.length k)%nat then Some (k, t) else best
    end
  else best.

Definition longest_prefix (s : string) (m : imports) : option (string * string) :=
  fold_left (prefix_step s) (map_to_list m) None.

(** Modelled from the spec: the resolver [resolve(specifier, importMap)]
    of section 4.1 (no resolver is implemented in the repository).
    Non-bare specifiers resolve to themselves; otherwise an exact key
    wins; otherwise the longest matching prefix key, with the remainder
    appended to its target; otherwise [Unresolved]. *)
Definition resolve (specifier : string) (importMap : imports) : ResolutionResult :=
  if negb (is_bare specifier) then Resolved specifier
  else match importMap !! specifier with
       | Some target => Resolved target
       | None =>
           match longest_prefix specifier importMap with
           | Some (k, target_prefix) =>
               match strip_prefix k specifier with
               | Some remainder => Resolved (String.append target_prefix remainder)
               | None => Unresolved
               end
           | None => Unresolved
           end
       end.

(** Decidable checks over the entries of a map, used on concrete maps. *)
Definition longest_ok (m : imports) (k s : string) : bool :=
  forallb (fun '(k', _) =>
    negb (is_prefix_key k' && starts_with k' s) || (String.length k' <=? String.length k)%nat)
    (map_to_list m).

Definition no_prefix_ok (m : imports) (s : string) : bool :=
  forallb (fun '(k', _) => negb (is_prefix_key k' && starts_with k' s)) (map_to_list m).

Definition lit_map : imports :=
  <["lit-html" := "./node_modules/lit-html/lit-html.js"]>
  (<["lit-html/" := "./node_modules/lit-html/"]> ∅).

Definition map_ab : imports := <["a/" := "X/"]> (<["a/b/" := "Y/"]> ∅).

End ImportMap.

(* ===================================================================== *)
(** ** rollup.config.js *)
(* ===================================================================== *)

Module RollupConfig.

(** JavaScript values held by the properties of a plain options object;
    objects and functions are held by reference ([JRef]). *)
Inductive jsval :=
| JString (s : string)
| JNumber (z : Z)
| JBool (b : bool)
| JNull
| JUndefined
| JRef (loc : positive).

(** A plain JavaScript object: its own enumerable string-keyed properties. *)
Abbreviation jsobject := (gmap string jsval).

(** The value of [indexHTML(options)] from [rollup-plugin-index-html]: the
    plugin is external, so it is represented by the options it receives. *)
Inductive plugin :=
| indexHTML (options : jsobject).

Record OutputOptions := {
  dir : string;
  format : string
}.

Record RollupOptions := {
  input : string;
  output : OutputOptions;
  plugins : list plugin
}.

Section Config.

(** The directory of the configuration file. *)
Variable __dirname : string.

(** [{ ...config, rootDir: __dirname }]: the own properties of [config],
    then [rootDir], which overrides a [rootDir] of [config]. *)
Definition index_html_options (config : jsobject) : jsobject :=
  <["rootDir" := JString __dirname]> config.

(** [export default config => ({ input, output, plugins })]. *)
Definition rollup_config (config : jsobject) : RollupOptions :=
  {| input := "./index.html";
     output := {| dir := "dist"; format := "esm" |};
     plugins := [indexHTML (index_html_options config)] |}.

End Config.

End RollupConfig.

(* ===================================================================== *)
(** ** Facts about the resolver *)
(* ===================================================================== *)

Module ImportMapFacts.
Import ImportMap.

(** [k] is a prefix key and [s] starts with it. *)
Abbreviation matches k s := (is_prefix_key k && starts_with k s = true).

Lemma strip_prefix_app (k r : string) : strip_prefix k (String.append k r) = Some r.
Proof.
  induction k as [|a k IH]; simpl; [reflexivity|].
  destruct (Ascii.ascii_dec a a); [exact IH | congruence].
Qed.

Lemma strip_prefix_Some (k s r : string) :
  strip_prefix k s = Some r -> s = String.append k r.
Proof.
  revert s. induction k as [|a k IH]; intros [|b s]; simpl; intros H.
  all: try (injection H as <-; reflexivity); try discriminate.
  destruct (Ascii.ascii_dec a b) as [->|]; [by rewrite (IH s H) | discriminate].
Qed.

Lemma starts_with_app (k r : string) : starts_with k (String.append k r) = true.
Proof. unfold starts_with. by rewrite strip_prefix_app. Qed.

(** Two prefixes of one string with the same length are equal. *)
Lemma strip_prefix_same_length (k k' s r r' : string) :
  strip_prefix k s = Some r -> strip_prefix k' s = Some r' ->
  String.length k = String.length k' -> k = k'.
Proof.
  revert k' s. induction k as [|a k IH]; intros [|a' k'] [|b s]; simpl;
    intros H H' Hl; try congruence.
  destruct (Ascii.ascii_dec a b) as [->|]; [|discriminate].
  destruct (Ascii.ascii_dec a' b) as [->|]; [|discriminate].
  f_equal. eapply IH; eauto.
Qed.

Lemma starts_with_strip (k s : string) :
  starts_with k s = true -> exists r, strip_prefix k s = Some r.
Proof. unfold starts_with. destruct (strip_prefix k s); [eauto | discriminate]. Qed.

Lemma prefix_step_cases s acc k t :
  prefix_step s acc (k, t) = acc \/
  (prefix_step s acc (k, t) = Some (k, t) /\ matches k s).
Proof.
  unfold prefix_step. destruct (is_prefix_key k && starts_with k s) eqn:E; [|auto].
  destruct acc as [[k0 t0]|]; [|auto].
  destruct (String.length k0 <? String.length k)%nat; auto.
Qed.

Lemma prefix_step_takes s acc k t :
  matches k s ->
  exists k1 t1, prefix_step s acc (k, t) = Some (k1, t1) /\
                (String.length k <= String.length k1)%nat.
Proof.
  intros Hm. unfold prefix_step. rewrite Hm.
  destruct acc as [[k0 t0]|]; [|eauto].
  destruct (String.length k0 <? String.length k)%nat eqn:E; [eauto|].
  apply Nat.ltb_ge in E. eauto.
Qed.

Lemma prefix_step_keeps s acc kt k0 t0 :
  acc = Some (k0, t0) ->
  exists k1 t1, prefix_step s acc kt = Some (k1, t1) /\
                (String.length k0 <= String.length k1)%nat.
Proof.
  intros ->. destruct kt as [k t]. unfold prefix_step.
  destruct (is_prefix_key k && starts_with k s); [|eauto].
  destruct (String.length k0 <? String.length k)%nat eqn:E; [|eauto].
  apply Nat.ltb_lt in E. exists k, t. split; [done | lia].
Qed.

(** The fold over the entries returns the initial best candidate or a
    matching entry, and a candidate at least as long as every matching
    entry and as the initial candidate. *)
Lemma prefix_fold_spec s (l : list (string * string)) acc :
  (fold_left (prefix_step s) l acc = acc \/
   exists k t, fold_left (prefix_step s) l acc = Some (k, t) /\ In (k, t) l /\ matches k s) /\
  (forall k t, In (k, t) l -> matches k s ->
     exists k0 t0, fold_left (prefix_step s) l acc = Some (k0, t0) /\
                   (String.length k <= String.length k0)%nat) /\
  (forall k0 t0, acc = Some (k0, t0) ->
     exists k1 t1, fold_left (prefix_step s) l acc = Some (k1, t1) /\
                   (String.length k0 <= String.length k1)%nat).
Proof.
  revert acc. induction l as [|[k t] l IH]; intros acc; cbn [fold_left In].
  { split; [by left|]. split; [tauto|]. intros k0 t0 ->. exists k0, t0. split; [done|lia]. }
  destruct (IH (prefix_step s acc (k, t))) as (H1 & H2 & H3). split; [|split].
  - destruct H1 as [H1|(k1 & t1 & Hr & Hin & Hm)].
    + rewrite H1. destruct (prefix_step_cases s acc k t) as [->|[-> Hm]]; [by left|].
      right. exists k, t. auto.
    + right. exists k1, t1. auto.
  - intros k' t' [[= <- <-]|Hin] Hm; [|by eapply H2].
    destruct (prefix_step_takes s acc k t Hm) as (k1 & t1 & Hs & Hle).
    destruct (H3 k1 t1 Hs) as (k2 & t2 & Hr & Hle'). exists k2, t2. split; [done|lia].
  - intros k0 t0 Hacc.
    destruct (prefix_step_keeps s acc (k, t) k0 t0 Hacc) as (k1 & t1 & Hs & Hle).
    destruct (H3 k1 t1 Hs) as (k2 & t2 & Hr & Hle'). exists k2, t2. split; [done|lia].
Qed.

(** The longest matching prefix key is the one [longest_prefix] finds. *)
Lemma longest_prefix_Some s (m : imports) k t :
  m !! k = Some t -> matches k s ->
  (forall k' t', m !! k' = Some t' -> matches k' s ->
     (String.length k' <= String.length k)%nat) ->
  longest_prefix s m = Some (k, t).
Proof.
  intros Hk Hm Hmax. unfold longest_prefix.
  destruct (prefix_fold_spec s (map_to_list m) None) as (H1 & H2 & _).
  assert (Hin : In (k, t) (map_to_list m)).
  { apply list_elem_of_In. by apply elem_of_map_to_list. }
  destruct (H2 k t Hin Hm) as (k0 & t0 & Hr & Hle).
  rewrite Hr in H1 |- *.
  destruct H1 as [H1|(k1 & t1 & [= <- <-] & Hin0 & Hm0)]; [discriminate|].
  apply list_elem_of_In, elem_of_map_to_list in Hin0.
  pose proof (Hmax k0 t0 Hin0 Hm0) as Hle'.
  apply andb_true_iff in Hm as [_ Hs]. apply andb_true_iff in Hm0 as [_ Hs0].
  destruct (starts_with_strip _ _ Hs) as [r Hr1].
  destruct (starts_with_strip _ _ Hs0) as [r0 Hr0].
  assert (k0 = k) as -> by (eapply strip_prefix_same_length; eauto; lia).
  congruence.
Qed.

Lemma longest_prefix_None s (m : imports) :
  (forall k t, m !! k = Some t -> is_prefix_key k = true -> starts_with k s = false) ->
  longest_prefix s m = None.
Proof.
  intros Hno. unfold longest_prefix.
  destruct (prefix_fold_spec s (map_to_list m) None) as ([H1|(k & t & _ & Hin & Hm)] & _ & _);
    [done|].
  apply list_elem_of_In, elem_of_map_to_list in Hin.
  apply andb_true_iff in Hm as [Hp Hs]. rewrite (Hno k t Hin Hp) in Hs. discriminate.
Qed.

Example resolve_ex1 : resolve "lit-html" lit_map = Resolved "./node_modules/lit-html/lit-html.js".
Proof. vm_compute. reflexivity. Qed.
Example resolve_ex2 : resolve "lit-html/directives/repeat.js" lit_map
  = Resolved "./node_modules/lit-html/directives/repeat.js".
Proof. vm_compute. reflexivity. Qed.
Example resolve_ex3 : resolve "lit-html/" lit_map = Resolved "./node_modules/lit-html/".
Proof. vm_compute. reflexivity. Qed.
Example resolve_ex4 : resolve "graphql" lit_map = Unresolved.
Proof. vm_compute. reflexivity. Qed.
Example resolve_ex5 : resolve "https://x/y.js" lit_map = Resolved "https://x/y.js".
Proof. vm_compute. reflexivity. Qed.


Lemma append_EmptyString_r (s : string) : s +:+ "" = s.
Proof.
  induction s as [|a s IH]; [reflexivity|].
  change (String a (s +:+ "") = String a s). by rewrite IH.
Qed.

Lemma strip_prefix_length (k s r : string) :
  strip_prefix k s = Some r ->
  String.length s = (String.length k + String.length r)%nat.
Proof.
  intros H. rewrite (strip_prefix_Some k s r H).
  clear H. induction k as [|a k IH]; [reflexivity|].
  change (S (String.length (k +:+ r)) = S (String.length k + String.length r))%nat.
  by rewrite IH.
Qed.

Lemma longest_ok_spec (m : imports) (k s : string) :
  longest_ok m k s = true ->
  forall k' t', m !! k' = Some t' -> matches k' s ->
    (String.length k' <= String.length k)%nat.
Proof.
  unfold longest_ok. rewrite forallb_forall. intros H k' t' Hl Hm.
  assert (Hin : In (k', t') (map_to_list m)).
  { apply list_elem_of_In. by apply elem_of_map_to_list. }
  specialize (H _ Hin). simpl in H. rewrite Hm in H. simpl in H.
  by apply Nat.leb_le.
Qed.

Lemma no_prefix_ok_spec (m : imports) (s : string) :
  no_prefix_ok m s = true ->
  forall k t, m !! k = Some t -> is_prefix_key k = true -> starts_with k s = false.
Proof.
  unfold no_prefix_ok. rewrite forallb_forall. intros H k t Hl Hp.
  assert (Hin : In (k, t) (map_to_list m)).
  { apply list_elem_of_In. by apply elem_of_map_to_list. }
  specialize (H _ Hin). simpl in H. rewrite Hp in H. simpl in H.
  by destruct (starts_with k s).
Qed.

(** An exact key hit on a bare specifier. *)
Lemma resolve_exact_hit (m : imports) (s t : string) :
  is_bare s = true -> m !! s = Some t -> resolve s m = Resolved t.
Proof. intros Hb Hs. unfold resolve. by rewrite Hb, Hs. Qed.

(** A non-bare specifier resolves to itself. *)
Lemma resolve_not_bare (m : imports) (s : string) :
  is_bare s = false -> resolve s m = Resolved s.
Proof. intros Hb. unfold resolve. by rewrite Hb. Qed.

(** The longest matching prefix key decides a bare specifier without an
    exact key. *)
Lemma resolve_longest_match (m : imports) (s k t r : string) :
  is_bare s = true -> m !! s = None -> m !! k = Some t ->
  is_prefix_key k = true -> strip_prefix k s = Some r ->
  (forall k' t', m !! k' = Some t' -> matches k' s ->
     (String.length k' <= String.length k)%nat) ->
  resolve s m = Resolved (t +:+ r).
Proof.
  intros Hb Hs Hk Hp Hr Hmax. unfold resolve. rewrite Hb, Hs.
  rewrite (longest_prefix_Some s m k t Hk); [| |done].
  - simpl. by rewrite Hr.
  - rewrite Hp. unfold starts_with. by rewrite Hr.
Qed.

(** C1 (amended): for every exact key [k] of the map with target [t],
    [resolve k importMap] is [Resolved t] when [k] is bare, and
    [Resolved k] (the key itself, the map bypassed) when it is not. *)
Theorem resolve_exact_key (m : imports) (k t : string)
  (Hk : m !! k = Some t) :
  resolve k m = (if is_bare k then Resolved t else Resolved k).
Proof.
  destruct (is_bare k) eqn:Hb.
  - exact (resolve_exact_hit m k t Hb Hk).
  - exact (resolve_not_bare m k Hb).
Qed.

Lemma resolve_exact_key_witness :
  resolve "lit-html" lit_map = Resolved "./node_modules/lit-html/lit-html.js" /\
  resolve "./x.js" (<["./x.js" := "./y.js"]> ∅) = Resolved "./x.js".
Proof.
  split.
  - apply (resolve_exact_key lit_map "lit-html" "./node_modules/lit-html/lit-html.js").
    reflexivity.
  - apply (resolve_exact_key (<["./x.js" := "./y.js"]> ∅) "./x.js" "./y.js").
    reflexivity.
Defined.

(** C1 counterexample: an exact key that starts with ["./"] is bypassed. *)
Lemma resolve_exact_key_cex :
  (<["./x.js" := "./y.js"]> ∅ : imports) !! "./x.js" = Some "./y.js" /\
  resolve "./x.js" (<["./x.js" := "./y.js"]> ∅) <> Resolved "./y.js".
Proof. split; [reflexivity | vm_compute; congruence]. Qed.

(** C2 (amended): for a prefix key [k] (ending in ["/"]) with target [t]
    and a suffix [s] such that [k ++ s] is bare, is no exact key, and no
    longer prefix key is a prefix of it,
    [resolve (k ++ s) importMap = Resolved (t ++ s)]: the remainder is
    appended verbatim, with no extension added. *)
Theorem resolve_prefix_key (m : imports) (k t s : string)
  (Hbare : is_bare (k +:+ s) = true) (Hpk : is_prefix_key k = true)
  (Hk : m !! k = Some t) (Hexact : m !! (k +:+ s) = None)
  (Hlongest : forall k' t', m !! k' = Some t' -> matches k' (k +:+ s) ->
     (String.length k' <= String.length k)%nat) :
  resolve (k +:+ s) m = Resolved (t +:+ s).
Proof.
  apply (resolve_longest_match m (k +:+ s) k t s); auto.
  apply strip_prefix_app.
Qed.

(** A subfile imported without its [.js] still resolves, to a path
    without the extension. *)
Lemma resolve_prefix_key_witness :
  resolve ("lit-html/" +:+ "directives/repeat") lit_map
  = Resolved ("./node_modules/lit-html/" +:+ "directives/repeat").
Proof.
  apply (resolve_prefix_key lit_map "lit-html/" "./node_modules/lit-html/"
           "directives/repeat"); try reflexivity.
  apply longest_ok_spec. vm_compute. reflexivity.
Defined.

(** C2 counterexample: a longer prefix key ["a/b/"] takes precedence over
    ["a/"] for ["a/" ++ "b/c"]. *)
Lemma resolve_prefix_key_cex :
  map_ab !! "a/" = Some "X/" /\ map_ab !! ("a/" +:+ "b/c") = None /\
  resolve ("a/" +:+ "b/c") map_ab <> Resolved ("X/" +:+ "b/c").
Proof. split; [reflexivity|]. split; [reflexivity | vm_compute; congruence]. Qed.

(** For every map where ["a/"] maps to ["X/"], ["a/b/"] maps to ["Y/"]
    and ["a/b/c"] is no exact key, [resolve "a/b/c"] is [Resolved "Y/c"],
    not [Resolved "X/b/c"]. *)
Lemma resolve_ab_instance (m : imports)
  (Ha : m !! "a/" = Some "X/") (Hab : m !! "a/b/" = Some "Y/")
  (Hexact : m !! "a/b/c" = None) :
  resolve "a/b/c" m = Resolved "Y/c" /\ resolve "a/b/c" m <> Resolved "X/b/c".
Proof.
  assert (Hr : resolve "a/b/c" m = Resolved "Y/c").
  { apply (resolve_longest_match m "a/b/c" "a/b/" "Y/" "c"); try done.
    intros k' t' _ Hm. apply andb_true_iff in Hm as [Hp Hs].
    destruct (starts_with_strip _ _ Hs) as [r Hr].
    pose proof (strip_prefix_length _ _ _ Hr) as Hl. simpl in Hl.
    destruct r as [|c r]; [|simpl in *; lia].
    pose proof (strip_prefix_Some _ _ _ Hr) as E.
    rewrite append_EmptyString_r in E. subst k'. discriminate. }
  split; [exact Hr | rewrite Hr; congruence].
Qed.

(** C3 (amended): longest prefix wins for bare specifiers. When a bare
    specifier [s] has no exact key and [k] is the longest prefix key
    that is a prefix of [s] ([s = k ++ r]), [resolve s] uses [k]:
    [Resolved (t ++ r)] for the target [t] of [k]. In particular, with
    ["a/"] mapped to ["X/"] and ["a/b/"] to ["Y/"], [resolve "a/b/c"] is
    [Resolved "Y/c"], not [Resolved "X/b/c"]. *)
Theorem resolve_longest_prefix_wins (m : imports) (s k t r : string)
  (Hbare : is_bare s = true) (Hexact : m !! s = None)
  (Hk : m !! k = Some t) (Hpk : is_prefix_key k = true)
  (Hr : strip_prefix k s = Some r)
  (Hlongest : forall k' t', m !! k' = Some t' -> matches k' s ->
     (String.length k' <= String.length k)%nat) :
  resolve s m = Resolved (t +:+ r) /\
  (forall m' : imports, m' !! "a/" = Some "X/" -> m' !! "a/b/" = Some "Y/" ->
     m' !! "a/b/c" = None ->
     resolve "a/b/c" m' = Resolved "Y/c" /\ resolve "a/b/c" m' <> Resolved "X/b/c").
Proof.
  split; [exact (resolve_longest_match m s k t r Hbare Hexact Hk Hpk Hr Hlongest)|].
  exact resolve_ab_instance.
Qed.

Lemma resolve_longest_prefix_wins_witness :
  resolve "a/b/c" map_ab = Resolved ("Y/" +:+ "c").
Proof.
  apply (resolve_longest_prefix_wins map_ab "a/b/c" "a/b/" "Y/" "c"); try reflexivity.
  apply longest_ok_spec. vm_compute. reflexivity.
Defined.

(** C3 counterexample: for the non-bare specifier ["./a/b"] the longer
    matching prefix key ["./a/"] is not used; the specifier resolves to
    itself. *)
Lemma resolve_longest_prefix_wins_cex :
  let m : imports := <["./" := "X/"]> (<["./a/" := "Y/"]> ∅) in
  m !! "./a/b" = None /\ resolve "./a/b" m = Resolved "./a/b" /\
  resolve "./a/b" m <> Resolved "Y/b".
Proof. vm_compute. split; [reflexivity|]. split; [reflexivity | congruence]. Qed.

(** C4: a bare specifier with no exact key and no matching prefix key
    resolves to the value [Unresolved]; every call returns a result value. *)
Theorem resolve_unmapped (m : imports) (s : string)
  (Hbare : is_bare s = true) (Hexact : m !! s = None)
  (Hnoprefix : forall k t, m !! k = Some t -> is_prefix_key k = true ->
     starts_with k s = false) :
  resolve s m = Unresolved /\
  (forall (s' : string) (m' : imports),
     (exists p, resolve s' m' = Resolved p) \/ resolve s' m' = Unresolved).
Proof.
  split.
  - unfold resolve. rewrite Hbare, Hexact.
    by rewrite (longest_prefix_None s m Hnoprefix).
  - intros s' m'. destruct (resolve s' m'); eauto.
Qed.

Lemma resolve_unmapped_witness :
  resolve "graphql" lit_map = Unresolved /\
  (forall (s' : string) (m' : imports),
     (exists p, resolve s' m' = Resolved p) \/ resolve s' m' = Unresolved).
Proof.
  apply (resolve_unmapped lit_map "graphql"); try reflexivity.
  apply no_prefix_ok_spec. vm_compute. reflexivity.
Defined.

(** C5: a specifier starting with ["./"], ["../"] or a URL scheme
    resolves to itself, whatever the map holds. *)
Theorem resolve_non_bare_identity (m : imports) (s : string)
  (Hnb : starts_with "./" s = true \/ starts_with "../" s = true \/ has_scheme s = true) :
  resolve s m = Resolved s.
Proof.
  unfold resolve, is_bare.
  destruct Hnb as [H|[H|H]]; rewrite H; [done | |];
    by rewrite ?orb_true_r.
Qed.

Lemma resolve_non_bare_identity_witness :
  resolve "./x.js" (<["./x.js" := "./y.js"]> ∅) = Resolved "./x.js".
Proof. apply resolve_non_bare_identity. left. reflexivity. Defined.

(** C6 (amended): a bare prefix key [k] with target [t] requested as is
    resolves to [t]; e.g. ["lit-html/"] resolves to
    ["./node_modules/lit-html/"]. *)
Theorem resolve_prefix_key_itself (m : imports) (k t : string)
  (Hbare : is_bare k = true) (Hpk : is_prefix_key k = true) (Hk : m !! k = Some t) :
  resolve k m = Resolved t /\
  resolve "lit-html/" lit_map = Resolved "./node_modules/lit-html/".
Proof.
  split; [exact (resolve_exact_hit m k t Hbare Hk)|].
  apply resolve_exact_hit; reflexivity.
Qed.

Lemma resolve_prefix_key_itself_witness :
  resolve "lit-html/" lit_map = Resolved "./node_modules/lit-html/" /\
  resolve "lit-html/" lit_map = Resolved "./node_modules/lit-html/".
Proof. apply (resolve_prefix_key_itself lit_map "lit-html/"); reflexivity. Defined.

(** C6 counterexample: the prefix key ["./"] is not bare and resolves to
    itself, not to its target. *)
Lemma resolve_prefix_key_itself_cex :
  is_prefix_key "./" = true /\ (<["./" := "lib/"]> ∅ : imports) !! "./" = Some "lib/" /\
  resolve "./" (<["./" := "lib/"]> ∅) <> Resolved "lib/".
Proof. split; [reflexivity|]. split; [reflexivity | vm_compute; congruence]. Qed.

(** C7: [resolve] depends only on the specifier and the entries of the
    map: two calls on maps with the same entries give the same result. *)
Theorem resolve_deterministic (s : string) (m1 m2 : imports)
  (Hsame : forall k, m1 !! k = m2 !! k) :
  resolve s m1 = resolve s m2.
Proof. apply map_eq in Hsame. by subst. Qed.

Lemma resolve_deterministic_witness :
  resolve "a/b/c" map_ab = resolve "a/b/c" (<["a/b/" := "Y/"]> (<["a/" := "X/"]> ∅)).
Proof. apply resolve_deterministic. intros k. reflexivity. Defined.

End ImportMapFacts.

(* ===================================================================== *)
(** ** Facts about rollup.config.js *)
(* ===================================================================== *)

Module RollupConfigFacts.
Import RollupConfig.

Definition sample_config : jsobject :=
  <["rootDir" := JString "/elsewhere"]> (<["watch" := JBool true]> ∅).

Example rollup_config_ex :
  plugins (rollup_config "/app" sample_config)
  = [indexHTML (<["rootDir" := JString "/app"]> (<["watch" := JBool true]> ∅))].
Proof. vm_compute. reflexivity. Qed.

(** C8: whatever the options object, the configuration has input
    ["./index.html"], output directory ["dist"] and output format ["esm"]. *)
Theorem rollup_config_fixed_fields (dirname : string) (config : jsobject) :
  input (rollup_config dirname config) = "./index.html" /\
  dir (output (rollup_config dirname config)) = "dist" /\
  format (output (rollup_config dirname config)) = "esm".
Proof. repeat split. Qed.

(** C9 (amended): the object given to [indexHTML] is [config] with its
    [rootDir] set to [__dirname]: [rootDir] is [__dirname], every other
    property has its value in [config], its properties are those of
    [config] plus [rootDir], and it equals [config] exactly when [config]
    already had [rootDir] equal to [__dirname]. *)
Theorem rollup_config_forwards_config (dirname : string) (config : jsobject) :
  exists opts, plugins (rollup_config dirname config) = [indexHTML opts] /\
    opts !! "rootDir" = Some (JString dirname) /\
    (forall k, k <> "rootDir" -> opts !! k = config !! k) /\
    dom opts = {["rootDir"]} ∪ dom config /\
    (opts = config <-> config !! "rootDir" = Some (JString dirname)).
Proof.
  exists (<["rootDir" := JString dirname]> config). split; [done|].
  split; [apply lookup_insert_eq|].
  split; [intros k Hk; by apply lookup_insert_ne|]. split.
  - apply dom_insert_L.
  - split.
    + intros <-. apply lookup_insert_eq.
    + intros H. by apply insert_id.
Qed.

Lemma rollup_config_forwards_config_witness :
  exists opts, plugins (rollup_config "/app" sample_config) = [indexHTML opts] /\
    opts !! "rootDir" = Some (JString "/app") /\
    (forall k, k <> "rootDir" -> opts !! k = sample_config !! k) /\
    dom opts = {["rootDir"]} ∪ dom sample_config /\
    (opts = sample_config <-> sample_config !! "rootDir" = Some (JString "/app")).
Proof. apply (rollup_config_forwards_config "/app" sample_config). Defined.

(** C9 counterexample: an empty options object is not forwarded as is;
    the plugin receives an object with a [rootDir] property. *)
Lemma rollup_config_forwards_config_cex :
  plugins (rollup_config "/app" ∅) <> [indexHTML ∅].
Proof.
  intros H. vm_compute in H. discriminate.
Qed.

(** C10: the object given to [indexHTML] has [rootDir] equal to
    [__dirname], overriding any [rootDir] of [config], and every other
    property of [config] unchanged. *)
Theorem rollup_config_root_dir (dirname : string) (config : jsobject) :
  exists opts, plugins (rollup_config dirname config) = [indexHTML opts] /\
    opts !! "rootDir" = Some (JString dirname) /\
    (forall k, k <> "rootDir" -> opts !! k = config !! k).
Proof.
  exists (<["rootDir" := JString dirname]> config). split; [done|]. split.
  - apply lookup_insert_eq.
  - intros k Hk. by apply lookup_insert_ne.
Qed.

Lemma rollup_config_root_dir_witness :
  exists opts, plugins (rollup_config "/app" sample_config) = [indexHTML opts] /\
    opts !! "rootDir" = Some (JString "/app") /\
    (forall k, k <> "rootDir" -> opts !! k = sample_config !! k).
Proof. apply (rollup_config_root_dir "/app" sample_config). Defined.

(** A [rootDir] supplied by the caller, or its absence, makes no
    difference to the configuration. *)
Theorem rollup_config_ignores_root_dir (dirname : string) (config : jsobject) (v : jsval) :
  rollup_config dirname (<["rootDir" := v]> config) = rollup_config dirname config /\
  rollup_config dirname (delete "rootDir" config) = rollup_config dirname config.
Proof.
  unfold rollup_config, index_html_options. split.
  - by rewrite insert_insert_eq.
  - by rewrite insert_delete_eq.
Qed.

(** Two options objects give the same configuration exactly when they
    agree on every property other than [rootDir]. *)
Theorem rollup_config_eq_iff (dirname : string) (c1 c2 : jsobject) :
  rollup_config dirname c1 = rollup_config dirname c2 <->
  delete "rootDir" c1 = delete "rootDir" c2.
Proof.
  unfold rollup_config, index_html_options. split.
  - intros [= H]. rewrite <- (delete_insert_eq c1 "rootDir" (JString dirname)).
    rewrite H. apply delete_insert_eq.
  - intros H. f_equal. f_equal. f_equal.
    rewrite <- (insert_delete_eq c1), <- (insert_delete_eq c2). by rewrite H.
Qed.

Lemma rollup_config_eq_iff_witness :
  rollup_config "/app" sample_config = rollup_config "/app" (<["watch" := JBool true]> ∅) /\
  rollup_config "/app" sample_config <> rollup_config "/app" ∅.
Proof.
  split.
  - apply (rollup_config_eq_iff "/app"). vm_compute. reflexivity.
  - intros H. apply (rollup_config_eq_iff "/app") in H. vm_compute in H. discriminate.
Defined.

(** The configuration records the directory it was given: configurations
    built in different directories differ. *)
Theorem rollup_config_dirname_inj (d1 d2 : string) (c1 c2 : jsobject)
  (Heq : rollup_config d1 c1 = rollup_config d2 c2) : d1 = d2.
Proof.
  unfold rollup_config, index_html_options in Heq. injection Heq as H.
  assert (Hl : (<["rootDir" := JString d1]> c1 : jsobject) !! "rootDir"
             = (<["rootDir" := JString d2]> c2 : jsobject) !! "rootDir") by (by rewrite H).
  rewrite !lookup_insert_eq in Hl. congruence.
Qed.

Lemma rollup_config_dirname_inj_witness :
  rollup_config "/app" sample_config = rollup_config "/app" sample_config /\ "/app" = "/app".
Proof. split; [reflexivity|]. exact (rollup_config_dirname_inj "/app" "/app" sample_config sample_config eq_refl). Defined.

End RollupConfigFacts.
